(** * Verification of vid_to_gif.py

    A shallow embedding of the video-to-GIF converter [src/vid_to_gif.py]:
    the timestamp normaliser, the width resolution of [main], the ffmpeg
    command and filter construction of [video_to_gif], and the control flow
    of [video_to_gif] and [main] as a state and exception monad threading the
    palette file and the log of started processes.

    Python floats are IEEE binary64 doubles, modelled by Rocq's primitive
    [float]; [str(x)] of a float argument is kept symbolic ([FloatArg x]).
    A Python string is a sequence of code points; the model covers strings
    whose code points are below 256 ([ascii] read as Latin-1). *)

From Stdlib Require Import ZArith List String Ascii Bool Floats.
From Stdlib Require Import DecimalString Lia.
Import ListNotations.
Open Scope string_scope.

(** ** Python builtins used by the script (CPython 3.12) *)

Module Py.

Definition is_digit (c : ascii) : bool :=
  let n := nat_of_ascii c in (48 <=? n)%nat && (n <=? 57)%nat.

Definition digit_val (c : ascii) : Z := Z.of_nat (nat_of_ascii c - 48).

(** [str.isspace] below 256: [\t\n\v\f\r], [\x1c]-[\x1f], space, [\x85]
    and [\xa0]. *)
Definition is_space (c : ascii) : bool :=
  let n := nat_of_ascii c in
  ((9 <=? n)%nat && (n <=? 13)%nat) || ((28 <=? n)%nat && (n <=? 32)%nat) ||
  (n =? 133)%nat || (n =? 160)%nat.

Fixpoint lstrip (s : string) : string :=
  match s with
  | String c r => if is_space c then lstrip r else s
  | EmptyString => EmptyString
  end.

Definition rev_string (s : string) : string :=
  string_of_list_ascii (rev (list_ascii_of_string s)).

(** [s.strip()], which [float()] and [int()] apply to their argument. *)
Definition strip (s : string) : string :=
  rev_string (lstrip (rev_string (lstrip s))).

(** Reads a digit part [digit (["_"] digit)*] (PEP 515 underscores, one
    at a time and only between digits), accumulating the value into [m]
    and counting the digits into [n]; returns the unread rest. *)
Fixpoint scan_digits (s : string) (m : Z) (n : nat) : Z * nat * string :=
  match s with
  | String c r =>
      if is_digit c then scan_digits r (10 * m + digit_val c) (S n)
      else if Ascii.eqb c "_" && negb (n =? 0)%nat then
        match r with
        | String d r' =>
            if is_digit d then scan_digits r' (10 * m + digit_val d) (S n)
            else (m, n, s)
        | EmptyString => (m, n, s)
        end
      else (m, n, s)
  | EmptyString => (m, n, s)
  end.

(** The rest of a decimal literal after its mantissa: nothing (exponent 0)
    or [e]/[E], an optional sign and a digit part. *)
Definition scan_exponent (s : string) : option Z :=
  match s with
  | EmptyString => Some 0%Z
  | String c r =>
      if Ascii.eqb c "e" || Ascii.eqb c "E" then
        let '(neg, r') :=
          match r with
          | String c' t =>
              if Ascii.eqb c' "-" then (true, t)
              else if Ascii.eqb c' "+" then (false, t)
              else (false, r)
          | EmptyString => (false, r)
          end in
        match scan_digits r' 0 0 with
        | (e, S _, EmptyString) => Some (if neg then - e else e)%Z
        | _ => None
        end
      else None
  end.

(** The double nearest to [a / b] (ties to even) for [a, b > 0]: the
    quotient is taken with at least 55 bits, a sticky bit records a
    non-zero remainder, and binary64 rounding (overflow to infinity,
    gradual underflow) is that of [SpecFloat]. *)
Definition round_ratio (a b : Z) : float :=
  let s := Z.max 0 (Z.log2 b - Z.log2 a + 55) in
  let q := ((a * 2 ^ s) / b)%Z in
  let sticky := if ((a * 2 ^ s) mod b =? 0)%Z then 0%Z else 1%Z in
  SF2Prim (SpecFloat.binary_round 53 1024 false (Z.to_pos (2 * q + sticky))
             (- s - 1))%Z.

(** The double nearest to [m * 10^e10], where [m < 10^ndig]: beyond
    [10^400] it is infinity and below [10^-400] zero, so that a huge
    exponent is not expanded. *)
Definition decimal_to_float (m e10 : Z) (ndig : nat) : float :=
  if (m =? 0)%Z then 0%float
  else if (400 <? e10)%Z then PrimFloat.infinity
  else if (Z.of_nat ndig + e10 <? -400)%Z then 0%float
  else if (0 <=? e10)%Z then round_ratio (m * 10 ^ e10) 1
  else round_ratio m (10 ^ (- e10)).

(** [str.lower]; only ASCII letters are mapped: no character of code
    point below 256 outside [A-Z] lowers to an ASCII character, which is
    all that the comparisons of the script observe. *)
Definition lower_char (c : ascii) : ascii :=
  let n := nat_of_ascii c in
  if (65 <=? n)%nat && (n <=? 90)%nat then ascii_of_nat (n + 32) else c.

Fixpoint lower (s : string) : string :=
  match s with
  | EmptyString => EmptyString
  | String c r => String (lower_char c) (lower r)
  end.

(** The spellings of infinity and NaN, in any case. *)
Definition special (s : string) : option float :=
  let l := lower s in
  if String.eqb l "inf" || String.eqb l "infinity" then Some PrimFloat.infinity
  else if String.eqb l "nan" then Some PrimFloat.nan
  else None.

(** An unsigned float literal: [inf], [infinity], [nan], or a mantissa
    [digits], [digits.], [.digits] or [digits.digits] with an optional
    exponent, correctly rounded. *)
Definition unsigned_float (s : string) : option float :=
  match special s with
  | Some f => Some f
  | None =>
      let '(m1, n1, r1) := scan_digits s 0 0 in
      let '(m2, n2, r2) :=
        match r1 with
        | String c r =>
            if Ascii.eqb c "." then scan_digits r m1 0 else (m1, 0%nat, r1)
        | EmptyString => (m1, 0%nat, r1)
        end in
      if (n1 + n2 =? 0)%nat then None
      else
        match scan_exponent r2 with
        | Some e => Some (decimal_to_float m2 (e - Z.of_nat n2) (n1 + n2))
        | None => None
        end
  end.

(** [float(s)] on a string: surrounding whitespace is stripped, then an
    optionally signed float literal.  [None] stands for the [ValueError]
    raised on anything else. *)
Definition py_float (s : string) : option float :=
  let t := strip s in
  match t with
  | String c r =>
      if Ascii.eqb c "-" then option_map PrimFloat.opp (unsigned_float r)
      else if Ascii.eqb c "+" then unsigned_float r
      else unsigned_float t
  | EmptyString => unsigned_float t
  end.

(** [int(s)] on a string: surrounding whitespace is stripped, then an
    optionally signed digit part; more than 4300 digits raise [ValueError]
    (the default [sys.get_int_max_str_digits()]). *)
Definition unsigned_int (s : string) : option Z :=
  match scan_digits s 0 0 with
  | (m, S _ as n, EmptyString) => if (4300 <? n)%nat then None else Some m
  | _ => None
  end.

Definition py_int (s : string) : option Z :=
  let t := strip s in
  match t with
  | String c r =>
      if Ascii.eqb c "-" then option_map Z.opp (unsigned_int r)
      else if Ascii.eqb c "+" then unsigned_int r
      else unsigned_int t
  | EmptyString => unsigned_int t
  end.

(** [str(n)] of an int. *)
Definition str_int (z : Z) : string := NilZero.string_of_int (Z.to_int z).

(** [s.split(sep)] for a one-character separator. *)
Fixpoint split (sep : ascii) (s : string) : list string :=
  match s with
  | EmptyString => [EmptyString]
  | String c r =>
      if Ascii.eqb c sep then EmptyString :: split sep r
      else match split sep r with
           | h :: t => String c h :: t
           | [] => [String c EmptyString]
           end
  end.

(** [sep.join(xs)]. *)
Fixpoint join (sep : string) (xs : list string) : string :=
  match xs with
  | [] => EmptyString
  | [x] => x
  | x :: r => x ++ sep ++ join sep r
  end.

End Py.

Import Py.

(** Exceptions raised by the script and by the calls it makes. *)
Inductive exn : Type :=
| ValueError
| OverflowError
| FileNotFoundError
| OSError
| UnicodeEncodeError
| SystemExit (code : Z).

Inductive result (A : Type) : Type :=
| Ok (a : A)
| Raise (e : exn).
Arguments Ok {A} a.
Arguments Raise {A} e.

(** ** [timestamp_to_seconds] (lines 39-61) *)

Definition map_float (parts : list string) : option (list float) :=
  fold_right (fun p acc =>
    match py_float p, acc with
    | Some x, Some xs => Some (x :: xs)
    | _, _ => None
    end) (Some []) parts.

Definition timestamp_to_seconds (timestamp : option string)
  : result (option float) :=
  match timestamp with
  | None => Ok None
  | Some ts =>
      match py_float ts with
      | Some x => Ok (Some x)
      | None =>
          let parts := split ":" ts in
          match parts with
          | [_; _; _] =>
              match map_float parts with
              | Some [hours; minutes; seconds] =>
                  Ok (Some (hours * 3600 + minutes * 60 + seconds)%float)
              | _ => Raise ValueError
              end
          | [_; _] =>
              match map_float parts with
              | Some [minutes; seconds] =>
                  Ok (Some (minutes * 60 + seconds)%float)
              | _ => Raise ValueError
              end
          | [p] =>
              match py_float p with
              | Some x => Ok (Some x)
              | None => Raise ValueError
              end
          | _ => Raise ValueError
          end
      end
  end.

(** The value of a timestamp that is given, as used by [video_to_gif]. *)
Definition seconds_of (ts : string) : result float :=
  match timestamp_to_seconds (Some ts) with
  | Ok (Some x) => Ok x
  | Ok None => Raise ValueError (* unreachable: a given timestamp has a value *)
  | Raise e => Raise e
  end.

(** ** Width resolution of [main] (lines 168-175, 239-255) *)

Definition RECOMMENDED_WIDTHS : list (string * Z) :=
  [("tiny", 240); ("small", 320); ("medium", 480); ("large", 640);
   ("xlarge", 800); ("hd", 1280)]%Z.

Fixpoint lookup (k : string) (d : list (string * Z)) : option Z :=
  match d with
  | [] => None
  | (k', v) :: r => if String.eqb k k' then Some v else lookup k r
  end.

(** Python truthiness of an optional string argument. *)
Definition truthy (o : option string) : bool :=
  match o with
  | Some (String _ _) => true
  | _ => false
  end.

Definition resolve_width (w : option string) : result Z :=
  match w with
  | Some tok =>
      if truthy w then
        match lookup (lower tok) RECOMMENDED_WIDTHS with
        | Some v => Ok v
        | None =>
            match py_int tok with
            | Some v => Ok v
            | None => Raise (SystemExit 1)
            end
        end
      else Ok 480%Z
  | None => Ok 480%Z
  end.

(** ** Command construction of [video_to_gif] (lines 87-143) *)

(** One argv entry; [FloatArg x] is [str(x)] of a float. *)
Inductive arg : Type :=
| Lit (s : string)
| FloatArg (x : float).

(** The base command with its trim options, or [Rejected] when the
    window is empty (line 101: the function prints and returns False). *)
Inductive base_cmd : Type :=
| Built (cmd : list arg)
| Rejected.

Definition build_base_cmd (input_file : string) (start end_ : option string)
  : result base_cmd :=
  let cmd := [Lit "ffmpeg"; Lit "-i"; Lit input_file] in
  let r_start :=
    match start with
    | Some s =>
        match seconds_of s with
        | Ok start_seconds => Ok (app cmd [Lit "-ss"; FloatArg start_seconds])
        | Raise e => Raise e
        end
    | None => Ok cmd
    end in
  match r_start with
  | Raise e => Raise e
  | Ok cmd =>
      match end_ with
      | Some e =>
          match seconds_of e with
          | Raise x => Raise x
          | Ok end_seconds =>
              match start with
              | Some s =>
                  match seconds_of s with
                  | Raise x => Raise x
                  | Ok start_seconds =>
                      let duration := (end_seconds - start_seconds)%float in
                      if (duration <=? 0)%float then Ok Rejected
                      else Ok (Built (app cmd [Lit "-t"; FloatArg duration]))
                  end
              | None => Ok (Built (app cmd [Lit "-t"; FloatArg end_seconds]))
              end
          end
      | None => Ok (Built cmd)
      end
  end.

(** Scale filter: [if width:] is false for [None] and for 0. *)
Definition scale_filter (width : option Z) : string :=
  match width with
  | Some w =>
      if (w =? 0)%Z then "scale=-1:-1:flags=lanczos"
      else "scale=" ++ str_int w ++ ":-1:flags=lanczos"
  | None => "scale=-1:-1:flags=lanczos"
  end.

Definition filters (width : option Z) (fps : Z) : list string :=
  [scale_filter width; "fps=" ++ str_int fps].

Definition palette_filters (width : option Z) (fps : Z) : string :=
  join "," (filters width fps) ++ ",palettegen".

Definition gif_filters (width : option Z) (fps : Z) : string :=
  join "," (filters width fps) ++ "[x];[x][1:v]paletteuse".

Definition palette_cmd (cmd : list arg) (width : option Z) (fps : Z)
  : list arg :=
  app cmd [Lit "-vf"; Lit (palette_filters width fps); Lit "-y";
          Lit "palette.png"].

Definition gif_cmd (cmd : list arg) (width : option Z) (fps : Z)
  (output_file : string) : list arg :=
  app cmd [Lit "-i"; Lit "palette.png"; Lit "-lavfi";
          Lit (gif_filters width fps); Lit "-y"; Lit output_file].

(** [PurePosixPath(p).name]: the last component once the path is split
    at ['/'] and empty and ['.'] components are dropped; [""] when none
    is left. *)
Definition path_name (p : string) : string :=
  last (filter (fun c => negb (String.eqb c "") && negb (String.eqb c "."))
          (split "/" p)) "".

(** [PurePath(p).stem]: with [i] the index of the last ['.'] of the
    name, the name up to [i] when [0 < i < len(name) - 1], else the whole
    name. *)
Definition stem (p : string) : string :=
  let name := path_name p in
  match rev (split "." name) with
  | suffix :: (_ :: _) as before =>
      let s := join "." (rev before) in
      if String.eqb s EmptyString || String.eqb suffix EmptyString then name
      else s
  | _ => name
  end.

(** ** Processes and files: a state and exception monad *)

(** The state the script observes: whether [palette.png] exists, and the
    log of the [subprocess.run] calls made so far (their argv, in order). *)
Record St : Type := mkSt {
  palette_png : bool;
  procs : list (list arg)
}.

Definition M (A : Type) : Type := St -> result A * St.

Definition ret {A : Type} (a : A) : M A := fun st => (Ok a, st).

Definition bind {A B : Type} (m : M A) (k : A -> M B) : M B :=
  fun st =>
    match m st with
    | (Ok a, st') => k a st'
    | (Raise e, st') => (Raise e, st')
    end.

Definition throw {A : Type} (e : exn) : M A := fun st => (Raise e, st).

(** [try: m except: h]. *)
Definition catch {A : Type} (m : M A) (h : exn -> M A) : M A :=
  fun st =>
    match m st with
    | (Ok a, st') => (Ok a, st')
    | (Raise e, st') => h e st'
    end.

Definition lift {A : Type} (r : result A) : M A :=
  match r with
  | Ok a => ret a
  | Raise e => throw e
  end.

Notation "x <- m ;; k" := (bind m (fun x => k))
  (at level 61, m at next level, right associativity).
Notation "m ;;; k" := (bind m (fun _ => k))
  (at level 61, right associativity).

(** How a started process ends: [Exited true] for exit status 0,
    [Exited false] for another status, [Missing] when its executable is
    not found. *)
Inductive outcome : Type :=
| Exited (status_zero : bool)
| Missing.

Definition version_argv : list arg := [Lit "ffmpeg"; Lit "-version"].

Definition ffprobe_argv (input_file : string) : list arg :=
  [Lit "ffprobe"; Lit "-v"; Lit "error"; Lit "-show_entries";
   Lit "format=duration"; Lit "-of";
   Lit "default=noprint_wrappers=1:nokey=1"; Lit input_file].

Section Script.

(** The external world.
    - [exec argv pal] runs a process while [palette.png] exists iff [pal],
      and gives how it ends and whether [palette.png] exists afterwards;
    - [path_exists] answers [os.path.exists] for the input path;
    - [size_report out] is what lines 153-155 do once the final pass has
      succeeded: [os.path.getsize(out)] raises [FileNotFoundError] (or
      another [OSError]) when [out] is not a file ffmpeg has written, and
      the print of a non-ASCII mark can raise [UnicodeEncodeError];
    - [show_duration] is what lines 34 and 230-236 do with the output of
      an [ffprobe] that exited with status 0: parse it ([ValueError] is
      caught and gives [None]) and print the duration or the fallback
      message ([int()] of a NaN or infinite duration raises).
    The other prints of the script are omitted. *)
Variable exec : list arg -> bool -> outcome * bool.
Variable path_exists : string -> bool.
Variable size_report : string -> result unit.
Variable show_duration : result unit.

(** [subprocess.run(argv, check=True, capture_output=True)]: the
    [CalledProcessError] of a non-zero exit is returned as [false], since
    every call site of the script catches it; the [FileNotFoundError] of a
    missing executable is raised, the process having never run. *)
Definition subprocess_run (argv : list arg) : M bool :=
  fun st =>
    let log := (procs st ++ [argv])%list in
    match exec argv (palette_png st) with
    | (Exited ok, pal) => (Ok ok, mkSt pal log)
    | (Missing, _) => (Raise FileNotFoundError, mkSt (palette_png st) log)
    end.

Definition palette_exists : M bool := fun st => (Ok (palette_png st), st).

Definition remove_palette : M unit :=
  fun st => (Ok tt, mkSt false (procs st)).

(** [if os.path.exists('palette.png'): os.remove('palette.png')] *)
Definition cleanup_palette : M unit :=
  e <- palette_exists ;;
  if e then remove_palette else ret tt.

(** [check_ffmpeg] (lines 15-21). *)
Definition check_ffmpeg : M bool :=
  catch (subprocess_run version_argv)
    (fun e => match e with FileNotFoundError => ret false | _ => throw e end).

(** [get_video_duration] (lines 24-36): whether [ffprobe] exited with
    status 0; a missing [ffprobe] is not caught. *)
Definition get_video_duration (input_file : string) : M bool :=
  subprocess_run (ffprobe_argv input_file).

(** [video_to_gif] (lines 64-163); the [except] clauses catch
    [CalledProcessError] only. *)
Definition video_to_gif (input_file : string) (output_file : option string)
  (width : option Z) (start end_ : option string) (fps : Z) : M bool :=
  if negb (path_exists input_file) then ret false else
  let output_file :=
    match output_file with
    | Some o => o
    | None => stem input_file ++ ".gif"
    end in
  b <- lift (build_base_cmd input_file start end_) ;;
  match b with
  | Rejected => ret false
  | Built cmd =>
      ok1 <- subprocess_run (palette_cmd cmd width fps) ;;
      if negb ok1 then ret false else
      ok2 <- subprocess_run (gif_cmd cmd width fps output_file) ;;
      if ok2 then cleanup_palette ;;; lift (size_report output_file) ;;; ret true
      else cleanup_palette ;;; ret false
  end.

(** The command-line arguments after [argparse]. *)
Record Args : Type := mkArgs {
  a_input : string;
  a_output : option string;
  a_width : option string;
  a_start : option string;
  a_end : option string;
  a_fps : Z;
  a_list_info : bool
}.

Definition validate_one (t : option string) : result unit :=
  if truthy t then
    match timestamp_to_seconds t with
    | Ok _ => Ok tt
    | Raise e => Raise e
    end
  else Ok tt.

(** Lines 257-266: a [ValueError] is reported and exits with status 1. *)
Definition validate_timestamps (start end_ : option string) : result unit :=
  match (match validate_one start with
         | Ok _ => validate_one end_
         | Raise e => Raise e
         end) with
  | Raise ValueError => Raise (SystemExit 1)
  | r => r
  end.

(** [main] (lines 166-278); [sys.exit(n)] raises [SystemExit n]. *)
Definition main (a : Args) : M unit :=
  ok <- check_ffmpeg ;;
  if negb ok then throw (SystemExit 1) else
  if a_list_info a then
    read <- get_video_duration (a_input a) ;;
    (if read then lift show_duration else ret tt) ;;;
    throw (SystemExit 0)
  else
  width <- lift (resolve_width (a_width a)) ;;
  lift (validate_timestamps (a_start a) (a_end a)) ;;;
  success <- video_to_gif (a_input a) (a_output a) (Some width) (a_start a)
               (a_end a) (a_fps a) ;;
  throw (SystemExit (if success then 0 else 1)%Z).

End Script.

(** ** How ffmpeg reads an argv

    ffmpeg's documented command-line convention ([ffmpeg [global options]
    {[input file options] -i input} ... {[output file options] output}]):
    an option applies to the next file named on the command line; a file
    named after [-i] is an input, any other non-option argument an output.
    [ff_files] lists the files of an argv with the options bound to each. *)
Module Ffmpeg.

Inductive ff_file : Type :=
| FfInput (name : arg) (opts : list (string * option arg))
| FfOutput (name : arg) (opts : list (string * option arg)).

Definition is_option (a : arg) : option string :=
  match a with
  | Lit (String "-" _ as o) => Some o
  | _ => None
  end.

(** Options of the script's commands that take a value. *)
Definition takes_value (o : string) : bool :=
  existsb (String.eqb o)
    ["-ss"; "-t"; "-vf"; "-lavfi"; "-v"; "-show_entries"; "-of"].

Fixpoint bind_files (pending : list (string * option arg)) (argv : list arg)
  : list ff_file :=
  match argv with
  | [] => []
  | a :: rest =>
      match is_option a with
      | Some "-i" =>
          match rest with
          | f :: r => FfInput f (rev pending) :: bind_files [] r
          | [] => []
          end
      | Some o =>
          if takes_value o then
            match rest with
            | v :: r => bind_files ((o, Some v) :: pending) r
            | [] => []
            end
          else bind_files ((o, None) :: pending) rest
      | None => FfOutput a (rev pending) :: bind_files [] rest
      end
  end.

(** The program name is skipped. *)
Definition ff_files (argv : list arg) : list ff_file :=
  match argv with
  | _ :: r => bind_files [] r
  | [] => []
  end.

End Ffmpeg.

(** ** Facts about the string helpers *)

Abbreviation chars := list_ascii_of_string.

(** The characters a float literal can contain: no whitespace, no colon. *)
Definition ok_char (c : ascii) : bool :=
  negb (is_space c) && negb (Ascii.eqb c ":").

Lemma ok_char_not_colon (c : ascii) : ok_char c = true -> c <> ":"%char.
Proof. intros H ->; discriminate H. Qed.

Lemma ok_char_not_space (c : ascii) : ok_char c = true -> is_space c = false.
Proof. unfold ok_char; intros H; apply andb_prop in H as [H _]; now destruct (is_space c). Qed.

Lemma digit_ok (c : ascii) : is_digit c = true -> ok_char c = true.
Proof. destruct c as [[] [] [] [] [] [] [] []]; vm_compute; congruence. Qed.

Lemma lstrip_chars (s : string) (c : ascii) :
  In c (chars s) -> is_space c = true \/ In c (chars (lstrip s)).
Proof.
  induction s as [|c0 r IH]; simpl; [tauto|].
  destruct (is_space c0) eqn:E; intros [<- | H]; simpl; auto.
Qed.

Lemma rev_string_chars (s : string) : chars (rev_string s) = rev (chars s).
Proof. unfold rev_string; apply list_ascii_of_string_of_list_ascii. Qed.

Lemma rev_string_involutive (s : string) : rev_string (rev_string s) = s.
Proof.
  unfold rev_string; rewrite list_ascii_of_string_of_list_ascii, rev_involutive.
  apply string_of_list_ascii_of_string.
Qed.

Lemma strip_chars (s : string) (c : ascii) :
  In c (chars s) -> is_space c = true \/ In c (chars (strip s)).
Proof.
  intros H; unfold strip.
  destruct (lstrip_chars s c H) as [Hs | H1]; [now left|].
  rewrite rev_string_chars; rewrite <- in_rev.
  apply lstrip_chars; rewrite rev_string_chars, <- in_rev; exact H1.
Qed.

Lemma lstrip_id (s : string) :
  (forall c, In c (chars s) -> is_space c = false) -> lstrip s = s.
Proof.
  destruct s as [|c r]; simpl; [reflexivity|].
  intros H; now rewrite (H c (or_introl eq_refl)).
Qed.

Lemma strip_id (s : string) :
  (forall c, In c (chars s) -> is_space c = false) -> strip s = s.
Proof.
  intros H; unfold strip; rewrite (lstrip_id s H), lstrip_id;
    [apply rev_string_involutive|].
  intros c; rewrite rev_string_chars, <- in_rev; exact (H c).
Qed.

Lemma scan_digits_chars : forall s m n m' n' r,
  scan_digits s m n = (m', n', r) ->
  forall c, In c (chars s) -> ok_char c = true \/ In c (chars r).
Proof.
  fix IH 1; intros [|c0 s] m n m' n' r H c Hc; simpl in H.
  - inversion H; subst; right; exact Hc.
  - destruct (is_digit c0) eqn:D.
    + destruct Hc as [<- | Hc]; [left; now apply digit_ok|].
      exact (IH s _ _ _ _ _ H c Hc).
    + destruct (Ascii.eqb c0 "_" && negb (n =? 0)%nat) eqn:U.
      * destruct s as [|d s'].
        -- inversion H; subst; right; exact Hc.
        -- destruct (is_digit d) eqn:D2.
           ++ destruct Hc as [<- | [<- | Hc]].
              ** left; apply andb_prop in U as [U _].
                 apply Ascii.eqb_eq in U; subst; reflexivity.
              ** left; now apply digit_ok.
              ** exact (IH s' _ _ _ _ _ H c Hc).
           ++ inversion H; subst; right; exact Hc.
      * inversion H; subst; right; exact Hc.
Qed.

Lemma scan_exponent_chars (r : string) (e : Z) :
  scan_exponent r = Some e -> forall c, In c (chars r) -> ok_char c = true.
Proof.
  unfold scan_exponent; destruct r as [|c0 r]; [intros _ c []|].
  destruct (Ascii.eqb c0 "e" || Ascii.eqb c0 "E") eqn:E; [|discriminate].
  assert (Hc0 : ok_char c0 = true)
    by (apply orb_prop in E as [E | E]; apply Ascii.eqb_eq in E; now subst).
  assert (Hsign : forall c, In c (chars r) ->
    ok_char c = true \/
    In c (chars (snd (match r with
                      | String c' t =>
                          if Ascii.eqb c' "-" then (true, t)
                          else if Ascii.eqb c' "+" then (false, t)
                          else (false, r)
                      | EmptyString => (false, r)
                      end)))).
  { destruct r as [|c1 t]; [intros c []|].
    destruct (Ascii.eqb c1 "-") eqn:M; [|destruct (Ascii.eqb c1 "+") eqn:P].
    all: intros c [<- | Hc]; simpl; auto.
    - left; apply Ascii.eqb_eq in M; now subst.
    - left; apply Ascii.eqb_eq in P; now subst. }
  destruct (match r with
            | String c' t =>
                if Ascii.eqb c' "-" then (true, t)
                else if Ascii.eqb c' "+" then (false, t)
                else (false, r)
            | EmptyString => (false, r)
            end) as [neg r'] eqn:S.
  cbn [snd] in Hsign.
  destruct (scan_digits r' 0 0) as [[e' [|k]] [|x y]] eqn:D; try discriminate.
  intros _ c [<- | Hc]; [exact Hc0|].
  destruct (Hsign c Hc) as [ok | Hc']; [exact ok|].
  destruct (scan_digits_chars _ _ _ _ _ _ D c Hc') as [ok | []]; exact ok.
Qed.

Lemma lower_chars (s : string) (c : ascii) :
  In c (chars s) -> In (lower_char c) (chars (lower s)).
Proof.
  induction s as [|c0 r IH]; simpl; [tauto|].
  intros [<- | H]; [now left | right; exact (IH H)].
Qed.

Lemma lower_letter_ok (c : ascii) :
  In (lower_char c) (chars "infinityan") -> ok_char c = true.
Proof.
  destruct c as [[] [] [] [] [] [] [] []]; vm_compute;
    try reflexivity; intros H; repeat destruct H as [H | H]; try discriminate H;
    contradiction.
Qed.

Lemma special_chars (s : string) (f : float) :
  special s = Some f -> forall c, In c (chars s) -> ok_char c = true.
Proof.
  unfold special; intros H c Hc; apply lower_letter_ok.
  pose proof (lower_chars s c Hc) as Hl.
  destruct (String.eqb (lower s) "inf") eqn:E1;
    [apply String.eqb_eq in E1; rewrite E1 in Hl; simpl in Hl |].
  { simpl; repeat destruct Hl as [<- | Hl]; auto 10; contradiction. }
  destruct (String.eqb (lower s) "infinity") eqn:E2;
    [apply String.eqb_eq in E2; rewrite E2 in Hl; simpl in Hl |].
  { simpl; repeat destruct Hl as [<- | Hl]; auto 10; contradiction. }
  destruct (String.eqb (lower s) "nan") eqn:E3; [|discriminate].
  apply String.eqb_eq in E3; rewrite E3 in Hl; simpl in Hl.
  simpl; repeat destruct Hl as [<- | Hl]; auto 10; contradiction.
Qed.

Lemma unsigned_float_chars (s : string) (x : float) :
  unsigned_float s = Some x -> forall c, In c (chars s) -> ok_char c = true.
Proof.
  unfold unsigned_float; destruct (special s) as [f|] eqn:Sp.
  - intros _; exact (special_chars _ _ Sp).
  - destruct (scan_digits s 0 0) as [[m1 n1] r1] eqn:E1.
    intros H c Hc.
    destruct (scan_digits_chars _ _ _ _ _ _ E1 c Hc) as [ok | Hc1]; [exact ok|].
    destruct r1 as [|c1 r1']; [destruct Hc1|].
    destruct (Ascii.eqb c1 ".") eqn:Dot.
    + destruct (scan_digits r1' m1 0) as [[m2 n2] r2] eqn:E2.
      destruct (n1 + n2 =? 0)%nat; [discriminate|].
      destruct (scan_exponent r2) eqn:Ex; [|discriminate].
      destruct Hc1 as [<- | Hc1]; [apply Ascii.eqb_eq in Dot; now subst|].
      destruct (scan_digits_chars _ _ _ _ _ _ E2 c Hc1) as [ok | Hc2];
        [exact ok|].
      exact (scan_exponent_chars _ _ Ex c Hc2).
    + destruct (n1 + 0 =? 0)%nat; [discriminate|].
      destruct (scan_exponent (String c1 r1')) eqn:Ex; [|discriminate].
      exact (scan_exponent_chars _ _ Ex c Hc1).
Qed.

Lemma py_float_chars (s : string) (x : float) :
  py_float s = Some x -> forall c, In c (chars s) -> c <> ":"%char.
Proof.
  intros H c Hc.
  destruct (strip_chars s c Hc) as [Sp | Hc']; [intros ->; discriminate Sp|].
  unfold py_float in H.
  destruct (strip s) as [|c0 r]; [destruct Hc'|].
  destruct (Ascii.eqb c0 "-") eqn:D1; [|destruct (Ascii.eqb c0 "+") eqn:D2].
  - destruct (unsigned_float r) eqn:U; [|discriminate].
    destruct Hc' as [<- | Hc']; [apply Ascii.eqb_eq in D1; now subst|].
    exact (ok_char_not_colon _ (unsigned_float_chars _ _ U c Hc')).
  - destruct Hc' as [<- | Hc']; [apply Ascii.eqb_eq in D2; now subst|].
    exact (ok_char_not_colon _ (unsigned_float_chars _ _ H c Hc')).
  - exact (ok_char_not_colon _ (unsigned_float_chars _ _ H c Hc')).
Qed.

Definition no_colon (s : string) : bool :=
  forallb (fun c => negb (Ascii.eqb c ":")) (chars s).

Lemma split_no_colon (s : string) :
  no_colon s = true -> split ":" s = [s].
Proof.
  induction s as [|c r IH]; simpl; [reflexivity|].
  intros H; apply andb_prop in H as [Hc Hr].
  apply negb_true_iff in Hc; rewrite Hc, (IH Hr); reflexivity.
Qed.

Lemma split_colon_app (a b : string) :
  no_colon a = true -> split ":" (a ++ String ":" b) = a :: split ":" b.
Proof.
  induction a as [|c r IH]; simpl; [reflexivity|].
  intros H; apply andb_prop in H as [Hc Hr].
  apply negb_true_iff in Hc; rewrite Hc, (IH Hr); reflexivity.
Qed.

Lemma py_float_no_colon (s : string) (x : float) :
  py_float s = Some x -> no_colon s = true.
Proof.
  intros H; unfold no_colon; apply forallb_forall; intros c Hc.
  apply negb_true_iff, Ascii.eqb_neq; exact (py_float_chars s x H c Hc).
Qed.

Lemma py_float_colon (a b : string) :
  py_float (a ++ String ":" b) = None.
Proof.
  destruct (py_float (a ++ String ":" b)) eqn:E; [|reflexivity].
  apply py_float_no_colon in E.
  exfalso; induction a as [|c r IH]; simpl in E; [discriminate|].
  apply andb_prop in E as [_ E]; exact (IH E).
Qed.

Lemma string_app_assoc (a b c : string) : (a ++ b) ++ c = a ++ (b ++ c).
Proof. induction a as [|x a IH]; simpl; [reflexivity | now rewrite IH]. Qed.

(** ** The timestamp normaliser *)

Lemma timestamp_two_parts (m sec : string) (mv sv : float) :
  py_float m = Some mv -> py_float sec = Some sv ->
  timestamp_to_seconds (Some (m ++ ":" ++ sec))
    = Ok (Some (mv * 60 + sv)%float).
Proof.
  intros Hm Hs; cbn [String.append].
  unfold timestamp_to_seconds; rewrite py_float_colon.
  rewrite (split_colon_app _ _ (py_float_no_colon _ _ Hm)).
  rewrite (split_no_colon _ (py_float_no_colon _ _ Hs)).
  unfold map_float; simpl; now rewrite Hm, Hs.
Qed.

Lemma timestamp_three_parts (h m sec : string) (hv mv sv : float) :
  py_float h = Some hv -> py_float m = Some mv -> py_float sec = Some sv ->
  timestamp_to_seconds (Some (h ++ ":" ++ m ++ ":" ++ sec))
    = Ok (Some (hv * 3600 + mv * 60 + sv)%float).
Proof.
  intros Hh Hm Hs; cbn [String.append].
  unfold timestamp_to_seconds; rewrite py_float_colon.
  rewrite (split_colon_app _ _ (py_float_no_colon _ _ Hh)).
  cbn [String.append].
  rewrite (split_colon_app _ _ (py_float_no_colon _ _ Hm)).
  rewrite (split_no_colon _ (py_float_no_colon _ _ Hs)).
  unfold map_float; simpl; now rewrite Hh, Hm, Hs.
Qed.

(** C5: a string that parses as a decimal number normalises to [float(s)];
    an [H:M:S] triple to [H*3600 + M*60 + S] and an [M:S] pair to
    [M*60 + S] (the same double operations as the source). *)
Theorem timestamp_to_seconds_values :
  (forall s x, py_float s = Some x ->
     timestamp_to_seconds (Some s) = Ok (Some x)) /\
  (forall h m sec hv mv sv,
     py_float h = Some hv -> py_float m = Some mv -> py_float sec = Some sv ->
     timestamp_to_seconds (Some (h ++ ":" ++ m ++ ":" ++ sec))
       = Ok (Some (hv * 3600 + mv * 60 + sv)%float)) /\
  (forall m sec mv sv,
     py_float m = Some mv -> py_float sec = Some sv ->
     timestamp_to_seconds (Some (m ++ ":" ++ sec))
       = Ok (Some (mv * 60 + sv)%float)).
Proof.
  split; [|split].
  - intros s x H; unfold timestamp_to_seconds; now rewrite H.
  - exact timestamp_three_parts.
  - exact timestamp_two_parts.
Qed.

Lemma timestamp_to_seconds_values_witness :
  timestamp_to_seconds (Some "2.5") = Ok (Some 2.5%float) /\
  timestamp_to_seconds (Some ("1" ++ ":" ++ "2" ++ ":" ++ "3"))
    = Ok (Some (1 * 3600 + 2 * 60 + 3)%float) /\
  timestamp_to_seconds (Some ("1" ++ ":" ++ "15"))
    = Ok (Some (1 * 60 + 15)%float).
Proof.
  destruct timestamp_to_seconds_values as [A [B C]].
  split; [|split].
  - apply A; vm_compute; reflexivity.
  - apply B; vm_compute; reflexivity.
  - apply C; vm_compute; reflexivity.
Defined.

(** C10: colon components are not range-checked: for any components that
    [float()] accepts, whatever their size or sign, [M:S] gives
    [M*60 + S] and [H:M:S] gives [H*3600 + M*60 + S]; e.g. [1:90] is 150
    seconds, [1:-30] is 30 seconds, [90:00] and [0:90:00] are 5400
    seconds, and [1:-30:75] is 1875 seconds. *)
Theorem timestamp_no_range_check :
  (forall m sec mv sv,
     py_float m = Some mv -> py_float sec = Some sv ->
     timestamp_to_seconds (Some (m ++ ":" ++ sec))
       = Ok (Some (mv * 60 + sv)%float)) /\
  (forall h m sec hv mv sv,
     py_float h = Some hv -> py_float m = Some mv -> py_float sec = Some sv ->
     timestamp_to_seconds (Some (h ++ ":" ++ m ++ ":" ++ sec))
       = Ok (Some (hv * 3600 + mv * 60 + sv)%float)) /\
  timestamp_to_seconds (Some "1:90") = Ok (Some 150.0%float) /\
  timestamp_to_seconds (Some "1:-30") = Ok (Some 30.0%float) /\
  timestamp_to_seconds (Some "90:00") = Ok (Some 5400.0%float) /\
  timestamp_to_seconds (Some "0:90:00") = Ok (Some 5400.0%float) /\
  timestamp_to_seconds (Some "1:-30:75") = Ok (Some 1875.0%float).
Proof.
  split; [exact timestamp_two_parts|].
  split; [exact timestamp_three_parts|].
  repeat split; vm_compute; reflexivity.
Qed.

Lemma timestamp_no_range_check_witness :
  py_float "1" = Some 1.0%float /\ py_float "90" = Some 90.0%float /\
  timestamp_to_seconds (Some ("1" ++ ":" ++ "90"))
    = Ok (Some (1.0 * 60 + 90.0)%float).
Proof.
  assert (H1 : py_float "1" = Some 1.0%float) by (vm_compute; reflexivity).
  assert (H2 : py_float "90" = Some 90.0%float) by (vm_compute; reflexivity).
  split; [exact H1|split; [exact H2|]].
  destruct timestamp_no_range_check as [A _].
  exact (A "1" "90" 1.0%float 90.0%float H1 H2).
Defined.

(** C6 (refuted): an accepted expression can normalise to a negative
    value: ["-5"] gives [-5.0]. *)
Lemma timestamp_negative_counterexample :
  ~ (forall s x, timestamp_to_seconds (Some s) = Ok (Some x) ->
       (0 <=? x)%float = true).
Proof.
  intros H.
  assert (E : timestamp_to_seconds (Some "-5") = Ok (Some (-5)%float))
    by (vm_compute; reflexivity).
  specialize (H _ _ E); vm_compute in H; discriminate H.
Qed.

(** C6 (as amended): there is no sign check; a decimal string with a
    leading minus sign normalises to the negation of its digits' value. *)
Theorem timestamp_negative_accepted (d : string) (x : float) :
  unsigned_float d = Some x ->
  timestamp_to_seconds (Some (String "-" d)) = Ok (Some (- x)%float).
Proof.
  intros H; unfold timestamp_to_seconds, py_float.
  rewrite strip_id.
  - simpl; now rewrite H.
  - intros c [<- | Hc]; [reflexivity|].
    exact (ok_char_not_space _ (unsigned_float_chars _ _ H c Hc)).
Qed.

Lemma timestamp_negative_accepted_witness :
  unsigned_float "5" = Some 5.0%float /\
  timestamp_to_seconds (Some "-5") = Ok (Some (PrimFloat.opp 5.0)).
Proof.
  split; [vm_compute; reflexivity|].
  apply (timestamp_negative_accepted "5"); vm_compute; reflexivity.
Defined.

(** A malformed expression: more than three segments, or a segment that
    is not a decimal number, makes the normaliser raise [ValueError]. *)
Lemma timestamp_malformed (s : string) :
  (3 < List.length (split ":" s))%nat \/
  (exists p, In p (split ":" s) /\ py_float p = None) ->
  timestamp_to_seconds (Some s) = Raise ValueError.
Proof.
  intros Hm; unfold timestamp_to_seconds.
  destruct (py_float s) as [x|] eqn:Hs.
  - exfalso; rewrite (split_no_colon _ (py_float_no_colon _ _ Hs)) in Hm.
    destruct Hm as [Hl | (p & [<- | []] & Hp)];
      [simpl in Hl; lia | congruence].
  - destruct (split ":" s) as [|p1 [|p2 [|p3 [|p4 r]]]] eqn:Hp;
      try reflexivity.
    all: destruct Hm as [Hl | (p & Hin & Hpn)]; [simpl in Hl; lia |].
    all: unfold map_float; simpl;
      repeat match goal with
             | |- context [py_float ?q] =>
                 let E := fresh "E" in destruct (py_float q) eqn:E
             end; try reflexivity.
    all: simpl in Hin; repeat destruct Hin as [<- | Hin]; try congruence;
      contradiction.
Qed.

(** ** The time window *)

(** C3: with [start] set the command seeks to its value; with both set
    the duration is [end - start] and a duration [<= 0] makes
    [video_to_gif] return False with no process started and no file
    touched; with only [end] set the duration is its value; and
    [start="0:30"], [end="1:15"] gives a duration of exactly 45 s. *)
Theorem time_window_derivation (input_file s e : string) (sv ev : float) :
  seconds_of s = Ok sv -> seconds_of e = Ok ev ->
  build_base_cmd input_file (Some s) None
    = Ok (Built [Lit "ffmpeg"; Lit "-i"; Lit input_file;
                 Lit "-ss"; FloatArg sv]) /\
  build_base_cmd input_file None (Some e)
    = Ok (Built [Lit "ffmpeg"; Lit "-i"; Lit input_file;
                 Lit "-t"; FloatArg ev]) /\
  build_base_cmd input_file (Some s) (Some e)
    = Ok (if (ev - sv <=? 0)%float then Rejected
          else Built [Lit "ffmpeg"; Lit "-i"; Lit input_file;
                      Lit "-ss"; FloatArg sv; Lit "-t"; FloatArg (ev - sv)%float]) /\
  ((ev - sv <=? 0)%float = true ->
   forall exec path_exists size_report output_file width fps st,
     video_to_gif exec path_exists size_report input_file output_file width
       (Some s) (Some e) fps st = (Ok false, st)) /\
  build_base_cmd input_file (Some "0:30") (Some "1:15")
    = Ok (Built [Lit "ffmpeg"; Lit "-i"; Lit input_file;
                 Lit "-ss"; FloatArg 30.0; Lit "-t"; FloatArg 45.0]).
Proof.
  intros Hs He.
  assert (Hboth : build_base_cmd input_file (Some s) (Some e)
    = Ok (if (ev - sv <=? 0)%float then Rejected
          else Built [Lit "ffmpeg"; Lit "-i"; Lit input_file;
                      Lit "-ss"; FloatArg sv; Lit "-t"; FloatArg (ev - sv)%float]))
    by (unfold build_base_cmd; rewrite Hs, He; simpl;
        destruct (ev - sv <=? 0)%float; reflexivity).
  split; [|split; [|split; [exact Hboth|split]]].
  - unfold build_base_cmd; now rewrite Hs.
  - unfold build_base_cmd; now rewrite He.
  - intros Hle exec path_exists size_report output_file width fps st.
    unfold video_to_gif; destruct (path_exists input_file); [|reflexivity].
    simpl; rewrite Hboth, Hle; reflexivity.
  - vm_compute; reflexivity.
Qed.

Lemma time_window_derivation_witness :
  seconds_of "10" = Ok 10.0%float /\ seconds_of "5" = Ok 5.0%float /\
  video_to_gif (fun _ pal => (Exited true, pal)) (fun _ => true)
    (fun _ => Ok tt) "in.mp4" None (Some 480%Z) (Some "10") (Some "5") 10
    (mkSt false [])
  = (Ok false, mkSt false []).
Proof.
  assert (Hs : seconds_of "10" = Ok 10.0%float) by (vm_compute; reflexivity).
  assert (He : seconds_of "5" = Ok 5.0%float) by (vm_compute; reflexivity).
  split; [exact Hs|split; [exact He|]].
  destruct (time_window_derivation "in.mp4" "10" "5" 10.0 5.0 Hs He)
    as (_ & _ & _ & H & _).
  apply H; vm_compute; reflexivity.
Defined.

(** ** The filter chains of the two passes *)

(** C4: both passes' filters are the same base chain, the lanczos scale
    filter and then the fps filter; the palette pass appends only
    [palettegen], the final pass only the [paletteuse] stage fed by the
    second input [1:v], which the final command names as [palette.png]. *)
Theorem filters_share_base (width : option Z) (fps : Z) :
  let base := scale_filter width ++ "," ++ "fps=" ++ str_int fps in
  (exists w, scale_filter width = "scale=" ++ w ++ ":-1:flags=lanczos") /\
  palette_filters width fps = base ++ ",palettegen" /\
  gif_filters width fps = base ++ "[x];[x][1:v]paletteuse" /\
  (forall cmd output_file,
     gif_cmd cmd width fps output_file
     = app cmd [Lit "-i"; Lit "palette.png"; Lit "-lavfi";
                Lit (base ++ "[x];[x][1:v]paletteuse"); Lit "-y";
                Lit output_file]).
Proof.
  intros base.
  assert (Hg : gif_filters width fps = base ++ "[x];[x][1:v]paletteuse")
    by (unfold gif_filters, base; simpl; now rewrite !string_app_assoc).
  split; [|split; [|split; [exact Hg|]]].
  - unfold scale_filter; destruct width as [w|].
    + destruct (w =? 0)%Z; [exists "-1"; reflexivity|].
      exists (str_int w); reflexivity.
    + exists "-1"; reflexivity.
  - unfold palette_filters, base; simpl; now rewrite !string_app_assoc.
  - intros cmd output_file; unfold gif_cmd; now rewrite Hg.
Qed.

(** ** Width resolution *)

(** C7 (refuted): an integer token is returned whatever its sign, so
    ["-5"] resolves to the width -5. *)
Lemma resolve_width_counterexample :
  ~ (forall tok v, resolve_width (Some tok) = Ok v -> (0 < v)%Z).
Proof.
  intros H.
  specialize (H "-5" (-5)%Z ltac:(vm_compute; reflexivity)); lia.
Qed.

Lemma lookup_in (k : string) (d : list (string * Z)) (u : Z) :
  lookup k d = Some u -> In u (map snd d).
Proof.
  induction d as [|[k' v] d IH]; simpl; [discriminate|].
  destruct (String.eqb k k'); [intros [= ->]; now left|].
  intros H; right; exact (IH H).
Qed.

(** C7 (as amended): an absent or empty token gives the medium preset
    480; a case-insensitive preset name gives its width; any other
    non-empty token gives its [int()] value when [int()] accepts it,
    whatever the sign (0 and negative values included), and otherwise
    fails with exit status 1; nothing else can happen. *)
Theorem resolve_width_cases :
  resolve_width None = Ok 480%Z /\
  resolve_width (Some "") = Ok 480%Z /\
  (forall tok v, lookup (lower tok) RECOMMENDED_WIDTHS = Some v ->
     resolve_width (Some tok) = Ok v) /\
  (forall tok, tok <> EmptyString ->
     lookup (lower tok) RECOMMENDED_WIDTHS = None ->
     resolve_width (Some tok)
     = match py_int tok with
       | Some v => Ok v
       | None => Raise (SystemExit 1)
       end) /\
  (forall w v, resolve_width w = Ok v ->
     In v (map snd RECOMMENDED_WIDTHS) \/
     exists tok, w = Some tok /\ py_int tok = Some v) /\
  (forall w e, resolve_width w = Raise e -> e = SystemExit 1) /\
  resolve_width (Some "Medium") = Ok 480%Z /\
  resolve_width (Some "0") = Ok 0%Z /\
  resolve_width (Some "-5") = Ok (-5)%Z /\
  resolve_width (Some " 1_000 ") = Ok 1000%Z /\
  resolve_width (Some "abc") = Raise (SystemExit 1) /\
  resolve_width (Some "12px") = Raise (SystemExit 1).
Proof.
  split; [reflexivity|split; [reflexivity|split; [|split; [|split; [|split]]]]].
  - intros [|c r] v H; [discriminate H|].
    simpl in H |- *; now rewrite H.
  - intros [|c r] Hne H; [contradiction|].
    unfold resolve_width; cbn [truthy]; now rewrite H.
  - intros [[|c r]|] v H; unfold resolve_width in H; cbn [truthy] in H;
      try (inversion H; subst; left; simpl; tauto).
    destruct (lookup _ _) as [u|] eqn:E.
    + inversion H; subst; left; exact (lookup_in _ _ _ E).
    + destruct (py_int (String c r)) eqn:P; inversion H; subst.
      right; eexists; split; [reflexivity|exact P].
  - intros [[|c r]|] e H; unfold resolve_width in H; cbn [truthy] in H;
      try discriminate.
    destruct (lookup _ _); try discriminate.
    destruct (py_int _); inversion H; reflexivity.
  - repeat split; vm_compute; reflexivity.
Qed.

Lemma resolve_width_cases_witness :
  lookup (lower "HD") RECOMMENDED_WIDTHS = Some 1280%Z /\
  resolve_width (Some "HD") = Ok 1280%Z /\
  resolve_width (Some "320") = Ok 320%Z.
Proof.
  destruct resolve_width_cases as (_ & _ & H & H' & _).
  split; [reflexivity|split].
  - apply H; reflexivity.
  - rewrite (H' "320" ltac:(discriminate) ltac:(reflexivity)); reflexivity.
Defined.

(** ** Runs of [main] *)

(** The request passes every check of [main] and [video_to_gif] that
    precedes the palette pass: the input exists, the width resolves and
    the timestamps give a non-empty window. *)
Definition request_valid (path_exists : string -> bool) (a : Args) : bool :=
  path_exists (a_input a) &&
  match resolve_width (a_width a) with Ok _ => true | Raise _ => false end &&
  match build_base_cmd (a_input a) (a_start a) (a_end a) with
  | Ok (Built _) => true
  | _ => false
  end.

Lemma timestamp_to_seconds_raise (t : option string) (e : exn) :
  timestamp_to_seconds t = Raise e -> e = ValueError.
Proof.
  unfold timestamp_to_seconds; intros H.
  repeat match type of H with
         | context [match ?x with _ => _ end] => destruct x
         end; congruence.
Qed.

Lemma timestamp_to_seconds_given (t : string) :
  timestamp_to_seconds (Some t) <> Ok None.
Proof.
  unfold timestamp_to_seconds; intros H.
  repeat match type of H with
         | context [match ?x with _ => _ end] => destruct x
         end; congruence.
Qed.

Lemma seconds_of_raise (s : string) (e : exn) :
  seconds_of s = Raise e -> e = ValueError.
Proof.
  unfold seconds_of; destruct (timestamp_to_seconds (Some s)) as [[x|]|e'] eqn:E;
    intros H; inversion H; subst; [reflexivity|].
  exact (timestamp_to_seconds_raise _ _ E).
Qed.

Lemma build_base_cmd_raise (input_file : string) (start end_ : option string)
  (e : exn) :
  build_base_cmd input_file start end_ = Raise e -> e = ValueError.
Proof.
  unfold build_base_cmd; intros H; cbn beta iota zeta in H.
  destruct start as [s|].
  - destruct (seconds_of s) as [sv|x] eqn:E1; cbn beta iota zeta in H;
      [|inversion H; subst; exact (seconds_of_raise _ _ E1)].
    destruct end_ as [e'|]; [|discriminate].
    destruct (seconds_of e') as [ev|x] eqn:E2; cbn beta iota zeta in H;
      [|inversion H; subst; exact (seconds_of_raise _ _ E2)].

    destruct (ev - sv <=? 0)%float; discriminate.
  - destruct end_ as [e'|]; [|discriminate].
    destruct (seconds_of e') as [ev|x] eqn:E2; cbn beta iota zeta in H;
      [discriminate|inversion H; subst; exact (seconds_of_raise _ _ E2)].
Qed.

(** When every given timestamp has a value, the command is built or the
    window rejected, without an exception. *)
Lemma build_base_cmd_no_raise (input_file : string) (start end_ : option string)
  (e : exn) :
  (forall t, start = Some t -> exists x, seconds_of t = Ok x) ->
  (forall t, end_ = Some t -> exists x, seconds_of t = Ok x) ->
  build_base_cmd input_file start end_ <> Raise e.
Proof.
  intros Hs He; unfold build_base_cmd; cbn beta iota zeta.
  destruct start as [s|].
  - destruct (Hs s eq_refl) as [sv Hsv]; rewrite Hsv; cbn beta iota zeta.
    destruct end_ as [t|]; [|discriminate].
    destruct (He t eq_refl) as [ev Hev]; rewrite Hev.
    destruct (ev - sv <=? 0)%float; discriminate.
  - destruct end_ as [t|]; [|discriminate].
    destruct (He t eq_refl) as [ev Hev]; rewrite Hev; discriminate.
Qed.

Lemma validated_seconds (t : option string) (s : string) :
  validate_one t = Ok tt -> t = Some s -> s <> EmptyString ->
  exists x, seconds_of s = Ok x.
Proof.
  intros V -> Hne; unfold validate_one in V.
  destruct s as [|c r]; [contradiction|]; cbn [truthy] in V.
  unfold seconds_of.
  destruct (timestamp_to_seconds (Some (String c r))) as [[x|]|e] eqn:E;
    try discriminate.
  - now exists x.
  - exfalso; exact (timestamp_to_seconds_given _ E).
Qed.

Lemma validate_timestamps_ok (start end_ : option string) :
  validate_timestamps start end_ = Ok tt ->
  validate_one start = Ok tt /\ validate_one end_ = Ok tt.
Proof.
  unfold validate_timestamps.
  destruct (validate_one start) as [[]|e1]; [|destruct e1; discriminate].
  destruct (validate_one end_) as [[]|e2]; [|destruct e2; discriminate].
  tauto.
Qed.

Lemma resolve_width_raise (w : option string) (e : exn) :
  resolve_width w = Raise e -> e = SystemExit 1.
Proof.
  intros H; destruct w as [[|c r]|]; unfold resolve_width in H;
    cbn [truthy] in H; try discriminate.
  destruct (lookup _ _); try discriminate.
  destruct (py_int _); inversion H; reflexivity.
Qed.

Lemma validate_one_raise (t : option string) (e : exn) :
  validate_one t = Raise e -> e = ValueError.
Proof.
  unfold validate_one; destruct (truthy t); [|discriminate].
  destruct (timestamp_to_seconds t) eqn:E; intros H; inversion H; subst.
  exact (timestamp_to_seconds_raise _ _ E).
Qed.

Lemma validate_timestamps_raise (start end_ : option string) (e : exn) :
  validate_timestamps start end_ = Raise e -> e = SystemExit 1.
Proof.
  unfold validate_timestamps; intros H.
  destruct (validate_one start) as [u|e1] eqn:V1.
  - destruct (validate_one end_) as [u2|e2] eqn:V2; [discriminate|].
    rewrite (validate_one_raise _ _ V2) in H; inversion H; reflexivity.
  - rewrite (validate_one_raise _ _ V1) in H; inversion H; reflexivity.
Qed.

(** [main] up to the availability check: its outcome decides. *)
Lemma main_check exec path_exists size_report show_duration (a : Args)
  (st : St) :
  main exec path_exists size_report show_duration a st
  = match exec version_argv (palette_png st) with
    | (Exited true, pal) =>
        (if a_list_info a then
           read <- get_video_duration exec (a_input a) ;;
           (if read then lift show_duration else ret tt) ;;;
           throw (SystemExit 0)
         else
           width <- lift (resolve_width (a_width a)) ;;
           lift (validate_timestamps (a_start a) (a_end a)) ;;;
           success <- video_to_gif exec path_exists size_report (a_input a)
                        (a_output a) (Some width) (a_start a) (a_end a)
                        (a_fps a) ;;
           throw (SystemExit (if success then 0 else 1)%Z))
          (mkSt pal (procs st ++ [version_argv])%list)
    | (Exited false, pal) =>
        (Raise (SystemExit 1), mkSt pal (procs st ++ [version_argv])%list)
    | (Missing, _) =>
        (Raise (SystemExit 1),
         mkSt (palette_png st) (procs st ++ [version_argv])%list)
    end.
Proof.
  unfold main at 1, check_ffmpeg, catch, subprocess_run at 1, bind at 1.
  destruct (exec version_argv (palette_png st)) as [[[|]|] pal]; reflexivity.
Qed.

(** A request that fails a check ends [main] with exit status 1 (or the
    uncaught [ValueError] of an empty timestamp, which [main] does not
    validate) after starting only the ffmpeg availability check. *)
Lemma main_invalid_request exec path_exists size_report show_duration
  (a : Args) (st : St) :
  a_list_info a = false -> request_valid path_exists a = false ->
  procs (snd (main exec path_exists size_report show_duration a st))
    = (procs st ++ [version_argv])%list /\
  (fst (main exec path_exists size_report show_duration a st)
     = Raise (SystemExit 1) \/
   fst (main exec path_exists size_report show_duration a st)
     = Raise ValueError).
Proof.
  intros Hl Hv; unfold request_valid in Hv; rewrite main_check.
  destruct (exec version_argv (palette_png st)) as [[[|]|] pal];
    cbn [fst snd procs]; [|tauto|tauto].
  rewrite Hl; unfold bind at 1.
  destruct (resolve_width (a_width a)) as [w|e] eqn:W; cbn [lift ret throw].
  2: rewrite (resolve_width_raise _ _ W); cbn; tauto.
  unfold bind at 1.
  destruct (validate_timestamps (a_start a) (a_end a)) as [u|e] eqn:V;
    cbn [lift ret throw].
  2: rewrite (validate_timestamps_raise _ _ _ V); cbn; tauto.
  unfold bind at 1, video_to_gif.
  destruct (path_exists (a_input a)); cbn [negb andb] in Hv |- *;
    [|cbn; tauto].
  unfold bind at 1.
  destruct (build_base_cmd (a_input a) (a_start a) (a_end a)) as [[c|]|e] eqn:B;
    cbn [lift ret throw]; try discriminate; [cbn; tauto|].
  rewrite (build_base_cmd_raise _ _ _ _ B); cbn; tauto.
Qed.

(** With no empty timestamp, such a request exits with status 1. *)
Lemma main_invalid_request_exit1 exec path_exists size_report show_duration
  (a : Args) (st : St) :
  a_list_info a = false -> request_valid path_exists a = false ->
  a_start a <> Some EmptyString -> a_end a <> Some EmptyString ->
  fst (main exec path_exists size_report show_duration a st)
  = Raise (SystemExit 1).
Proof.
  intros Hl Hv Hs He; unfold request_valid in Hv; rewrite main_check.
  destruct (exec version_argv (palette_png st)) as [[[|]|] pal];
    cbn [fst]; [|reflexivity|reflexivity].
  rewrite Hl; unfold bind at 1.
  destruct (resolve_width (a_width a)) as [w|e] eqn:W; cbn [lift ret throw].
  2: rewrite (resolve_width_raise _ _ W); reflexivity.
  unfold bind at 1.
  destruct (validate_timestamps (a_start a) (a_end a)) as [[]|e] eqn:V;
    cbn [lift ret throw].
  2: rewrite (validate_timestamps_raise _ _ _ V); reflexivity.
  destruct (validate_timestamps_ok _ _ V) as [V1 V2].
  unfold bind at 1, video_to_gif.
  destruct (path_exists (a_input a)); cbn [negb andb] in Hv |- *;
    [|reflexivity].
  unfold bind at 1.
  destruct (build_base_cmd (a_input a) (a_start a) (a_end a)) as [[c|]|e] eqn:B;
    cbn [lift ret throw]; try discriminate; [reflexivity|].
  exfalso; revert B; apply build_base_cmd_no_raise.
  - intros t Ht; apply (validated_seconds _ _ V1 Ht).
    intros ->; exact (Hs Ht).
  - intros t Ht; apply (validated_seconds _ _ V2 Ht).
    intros ->; exact (He Ht).
Qed.

(** ** The palette file *)

(** An ffmpeg whose palette pass exits non-zero after it has written
    [palette.png]; the availability check succeeds. *)
Definition exec_palette_fails (argv : list arg) (pal : bool) : outcome * bool :=
  match argv with
  | [_; Lit "-version"] => (Exited true, pal)
  | _ => (Exited false, true)
  end.

Definition plain_args : Args := mkArgs "in.mp4" None None None None 10 false.

(** Once the palette pass has succeeded, both outcomes of the final pass
    (lines 146-163) leave no palette file, provided ffmpeg is still
    found. *)
Lemma palette_removed_after_final_pass exec path_exists size_report
  input_file output_file width start end_ fps (st : St) (cmd : list arg)
  (pal1 : bool) :
  let out := match output_file with
             | Some o => o
             | None => stem input_file ++ ".gif"
             end in
  path_exists input_file = true ->
  build_base_cmd input_file start end_ = Ok (Built cmd) ->
  exec (palette_cmd cmd width fps) (palette_png st) = (Exited true, pal1) ->
  fst (exec (gif_cmd cmd width fps out) pal1) <> Missing ->
  palette_png (snd (video_to_gif exec path_exists size_report input_file
                      output_file width start end_ fps st)) = false.
Proof.
  intros out Hp Hb Hok Hg; unfold video_to_gif; rewrite Hp, Hb.
  cbn [negb lift]; unfold bind at 1; cbn [ret].
  fold out; unfold bind, subprocess_run; rewrite Hok.
  cbn [negb palette_png procs].
  destruct (exec (gif_cmd cmd width fps out) pal1) as [[[|]|] pal2];
    [| |contradiction].
  all: unfold cleanup_palette, bind, palette_exists, lift.
  all: destruct pal2; cbn; try reflexivity.
  all: destruct (size_report out); reflexivity.
Qed.

(** C1 (code bug): when the palette pass fails after writing
    [palette.png] (lines 130-134), [video_to_gif] returns False without
    removing it, and [main] exits with status 1 leaving it on disk; the
    failure path of the final pass (lines 159-163) does remove it. *)
Theorem palette_survives_failed_palette_pass :
  main exec_palette_fails (fun _ => true) (fun _ => Ok tt) (Ok tt) plain_args
    (mkSt false [])
  = (Raise (SystemExit 1),
     mkSt true [version_argv;
                palette_cmd [Lit "ffmpeg"; Lit "-i"; Lit "in.mp4"]
                  (Some 480%Z) 10]).
Proof. vm_compute; reflexivity. Qed.

(** ** Validation and process order *)

(** C2 (refuted): the availability check [ffmpeg -version] is started
    before any validation: with a missing input file one process has run
    when the error is reported. *)
Lemma validation_before_processes_counterexample :
  ~ (forall exec path_exists size_report show_duration a st,
       a_list_info a = false -> request_valid path_exists a = false ->
       procs (snd (main exec path_exists size_report show_duration a st))
       = procs st).
Proof.
  intros H.
  specialize (H (fun _ pal => (Exited true, pal)) (fun _ => false)
                (fun _ => Ok tt) (Ok tt) plain_args (mkSt false [])
                eq_refl eq_refl).
  vm_compute in H; discriminate H.
Qed.

(** C2 (as amended): every request that fails validation (missing input,
    unresolvable width, bad timestamp, empty window) ends [main] before
    either encoder pass starts; the only process started is the
    availability check, which runs first; when no timestamp argument is
    an empty string, [main] exits with status 1. *)
Theorem validation_before_encoder_passes exec path_exists size_report
  show_duration (a : Args) (st : St) :
  a_list_info a = false -> request_valid path_exists a = false ->
  procs (snd (main exec path_exists size_report show_duration a st))
    = (procs st ++ [version_argv])%list /\
  (a_start a <> Some EmptyString -> a_end a <> Some EmptyString ->
   fst (main exec path_exists size_report show_duration a st)
   = Raise (SystemExit 1)).
Proof.
  intros Hl Hv; split.
  - exact (proj1 (main_invalid_request exec path_exists size_report
                    show_duration a st Hl Hv)).
  - exact (main_invalid_request_exit1 exec path_exists size_report
             show_duration a st Hl Hv).
Qed.

Lemma validation_before_encoder_passes_witness :
  request_valid (fun _ => false) plain_args = false /\
  procs (snd (main (fun _ pal => (Exited true, pal)) (fun _ => false)
                (fun _ => Ok tt) (Ok tt) plain_args (mkSt false [])))
    = [version_argv] /\
  fst (main (fun _ pal => (Exited true, pal)) (fun _ => false)
         (fun _ => Ok tt) (Ok tt) plain_args (mkSt false []))
    = Raise (SystemExit 1).
Proof.
  destruct (validation_before_encoder_passes (fun _ pal => (Exited true, pal))
              (fun _ => false) (fun _ => Ok tt) (Ok tt) plain_args
              (mkSt false []) eq_refl eq_refl) as [P E].
  split; [reflexivity|split; [exact P|]].
  apply E; discriminate.
Defined.

Lemma build_base_cmd_bad_timestamp (input_file s : string)
  (start end_ : option string) :
  seconds_of s = Raise ValueError -> start = Some s \/ end_ = Some s ->
  build_base_cmd input_file start end_ = Raise ValueError.
Proof.
  intros Hs Hse; unfold build_base_cmd; cbn beta iota zeta.
  destruct Hse as [-> | ->].
  - now rewrite Hs.
  - destruct start as [s'|].
    + destruct (seconds_of s') as [sv|x] eqn:E; cbn beta iota zeta;
        [|rewrite (seconds_of_raise _ _ E); reflexivity].
      now rewrite Hs.
    + now rewrite Hs.
Qed.

(** C8 (refuted): a malformed timestamp is reported after a process has
    been started, the availability check of [main]. *)
Lemma malformed_timestamp_counterexample :
  ~ (forall exec path_exists size_report show_duration a st,
       a_list_info a = false -> a_start a = Some "1:2:3:4" ->
       procs (snd (main exec path_exists size_report show_duration a st))
       = procs st).
Proof.
  intros H.
  specialize (H (fun _ pal => (Exited true, pal)) (fun _ => true)
                (fun _ => Ok tt) (Ok tt)
                (mkArgs "in.mp4" None None (Some "1:2:3:4") None 10 false)
                (mkSt false []) eq_refl eq_refl).
  vm_compute in H; discriminate H.
Qed.

(** C8 (as amended): a malformed expression (more than three colon
    segments, or a segment that is not a decimal number) makes the
    normaliser raise [ValueError]; given as start or end, it ends [main]
    with failure before either encoder pass, only the availability check
    having been started. *)
Theorem malformed_timestamp_rejected (s : string) :
  (3 < List.length (split ":" s))%nat \/
  (exists p, In p (split ":" s) /\ py_float p = None) ->
  timestamp_to_seconds (Some s) = Raise ValueError /\
  (forall exec path_exists size_report show_duration (a : Args) (st : St),
     a_list_info a = false -> (a_start a = Some s \/ a_end a = Some s) ->
     procs (snd (main exec path_exists size_report show_duration a st))
       = (procs st ++ [version_argv])%list /\
     (fst (main exec path_exists size_report show_duration a st)
        = Raise (SystemExit 1) \/
      fst (main exec path_exists size_report show_duration a st)
        = Raise ValueError)).
Proof.
  intros Hm.
  pose proof (timestamp_malformed s Hm) as Ht.
  split; [exact Ht|].
  intros exec path_exists size_report show_duration a st Hl Hse.
  apply main_invalid_request; [exact Hl|].
  unfold request_valid.
  assert (Hs : seconds_of s = Raise ValueError)
    by (unfold seconds_of; now rewrite Ht).
  rewrite (build_base_cmd_bad_timestamp (a_input a) s _ _ Hs Hse).
  now rewrite andb_false_r.
Qed.

Lemma malformed_timestamp_rejected_witness :
  timestamp_to_seconds (Some "1:2:3:4") = Raise ValueError /\
  timestamp_to_seconds (Some "abc") = Raise ValueError.
Proof.
  split.
  - apply (malformed_timestamp_rejected "1:2:3:4"); left; vm_compute; lia.
  - apply (malformed_timestamp_rejected "abc"); right.
    exists "abc"; split; [left; reflexivity | reflexivity].
Defined.

(** ** The time window of the two passes *)

Import Ffmpeg.

(** C9 (code bug): both passes extend the same base command, but ffmpeg
    binds an option to the next file named.  In the palette pass the trim
    options [-ss]/[-t] precede the output [palette.png] and so trim the
    video; in the final pass they precede [-i palette.png] and become
    options of the palette input, while the GIF output gets none: for
    [--start 10 --end 20] the palette is built from seconds 10-20 and the
    GIF from the whole video. *)
Theorem passes_trim_different_files :
  let cmd := [Lit "ffmpeg"; Lit "-i"; Lit "in.mp4"; Lit "-ss"; FloatArg 10.0;
              Lit "-t"; FloatArg 10.0] in
  build_base_cmd "in.mp4" (Some "10") (Some "20") = Ok (Built cmd) /\
  stem "in.mp4" ++ ".gif" = "in.gif" /\
  ff_files (palette_cmd cmd (Some 480%Z) 10)
  = [FfInput (Lit "in.mp4") [];
     FfOutput (Lit "palette.png")
       [("-ss", Some (FloatArg 10.0)); ("-t", Some (FloatArg 10.0));
        ("-vf", Some (Lit (palette_filters (Some 480%Z) 10))); ("-y", None)]] /\
  ff_files (gif_cmd cmd (Some 480%Z) 10 "in.gif")
  = [FfInput (Lit "in.mp4") [];
     FfInput (Lit "palette.png")
       [("-ss", Some (FloatArg 10.0)); ("-t", Some (FloatArg 10.0))];
     FfOutput (Lit "in.gif")
       [("-lavfi", Some (Lit (gif_filters (Some 480%Z) 10))); ("-y", None)]].
Proof. repeat split; vm_compute; reflexivity. Qed.

(** * Further properties of the script *)

(** The output path [video_to_gif] computes (lines 83-85). *)
Definition output_path (a : Args) : string :=
  match a_output a with
  | Some o => o
  | None => stem (a_input a) ++ ".gif"
  end.


(** Without a working [ffmpeg -version] (lines 15-21, 223-226), [main]
    exits with status 1 after that one process, whatever the arguments,
    even in [--list-info] mode: when ffmpeg exits non-zero, and when it is
    not found at all ([FileNotFoundError] is caught). *)
Theorem main_without_ffmpeg exec path_exists size_report show_duration
  (a : Args) (st : St) (pal : bool) :
  (exec version_argv (palette_png st) = (Exited false, pal) ->
   main exec path_exists size_report show_duration a st
   = (Raise (SystemExit 1), mkSt pal (procs st ++ [version_argv])%list)) /\
  (exec version_argv (palette_png st) = (Missing, pal) ->
   main exec path_exists size_report show_duration a st
   = (Raise (SystemExit 1),
      mkSt (palette_png st) (procs st ++ [version_argv])%list)).
Proof. split; intros Hv; rewrite main_check, Hv; reflexivity. Qed.

Lemma main_without_ffmpeg_witness :
  main (fun _ pal => (Exited false, pal)) (fun _ => true) (fun _ => Ok tt)
    (Ok tt) plain_args (mkSt false [])
  = (Raise (SystemExit 1), mkSt false [version_argv]) /\
  main (fun _ pal => (Missing, pal)) (fun _ => true) (fun _ => Ok tt)
    (Ok tt) plain_args (mkSt false [])
  = (Raise (SystemExit 1), mkSt false [version_argv]).
Proof.
  split.
  - apply (proj1 (main_without_ffmpeg (fun _ pal => (Exited false, pal))
             (fun _ => true) (fun _ => Ok tt) (Ok tt) plain_args
             (mkSt false []) false)); reflexivity.
  - apply (proj2 (main_without_ffmpeg (fun _ pal => (Missing, pal))
             (fun _ => true) (fun _ => Ok tt) (Ok tt) plain_args
             (mkSt false []) false)); reflexivity.
Defined.

(** [--list-info] (lines 24-36, 229-237): after the availability check
    [main] runs only [ffprobe] on the input, and no encoder pass.  A
    missing [ffprobe] raises [FileNotFoundError], which
    [get_video_duration] does not catch, so it escapes [main]; an
    [ffprobe] that exits non-zero gives exit status 0; after a zero exit
    the status is 0 unless reading or printing the duration raises. *)
Theorem main_list_info exec path_exists size_report show_duration
  (a : Args) (st : St) (pal : bool) :
  exec version_argv (palette_png st) = (Exited true, pal) ->
  a_list_info a = true ->
  main exec path_exists size_report show_duration a st
  = let log := (procs st ++ [version_argv; ffprobe_argv (a_input a)])%list in
    match exec (ffprobe_argv (a_input a)) pal with
    | (Missing, _) => (Raise FileNotFoundError, mkSt pal log)
    | (Exited false, pal') => (Raise (SystemExit 0), mkSt pal' log)
    | (Exited true, pal') =>
        (match show_duration with
         | Ok _ => Raise (SystemExit 0)
         | Raise e => Raise e
         end, mkSt pal' log)
    end.
Proof.
  intros Hv Hl; rewrite main_check, Hv, Hl.
  unfold get_video_duration, subprocess_run, bind, lift, ret, throw;
    cbn [palette_png procs].
  rewrite <- app_assoc.
  destruct (exec (ffprobe_argv (a_input a)) pal) as [[[|]|] pal'];
    [destruct show_duration| |]; reflexivity.
Qed.

(** An ffmpeg installation without [ffprobe]. *)
Definition exec_no_ffprobe (argv : list arg) (pal : bool) : outcome * bool :=
  if existsb (fun x => match x with Lit "ffprobe" => true | _ => false end) argv
  then (Missing, pal) else (Exited true, pal).

Lemma main_list_info_witness :
  main exec_no_ffprobe (fun _ => true) (fun _ => Ok tt) (Ok tt)
    (mkArgs "in.mp4" None None None None 10 true) (mkSt false [])
  = (Raise FileNotFoundError,
     mkSt false [version_argv; ffprobe_argv "in.mp4"]).
Proof.
  rewrite (main_list_info exec_no_ffprobe (fun _ => true) (fun _ => Ok tt)
             (Ok tt) (mkArgs "in.mp4" None None None None 10 true)
             (mkSt false []) false); reflexivity.
Defined.



(** An empty [--start ""] is falsy, so [main] skips its validation
    (lines 259-260), but [video_to_gif] tests [start is not None] and
    converts it (lines 91-92): the [ValueError] escapes uncaught, after
    the availability check and before any encoder pass. *)
Theorem main_empty_start_uncaught exec path_exists size_report show_duration
  (a : Args) (st : St) (pal0 : bool) (w : Z) :
  a_list_info a = false ->
  exec version_argv (palette_png st) = (Exited true, pal0) ->
  path_exists (a_input a) = true ->
  resolve_width (a_width a) = Ok w ->
  a_start a = Some "" -> a_end a = None ->
  main exec path_exists size_report show_duration a st
  = (Raise ValueError, mkSt pal0 (procs st ++ [version_argv])%list).
Proof.
  intros Hl Hv Hp W Hs He.
  rewrite main_check, Hv, Hl.
  unfold video_to_gif, bind, lift, ret, throw.
  rewrite W, Hp, Hs, He.
  reflexivity.
Qed.

Lemma main_empty_start_uncaught_witness :
  main (fun _ pal => (Exited true, pal)) (fun _ => true) (fun _ => Ok tt)
    (Ok tt) (mkArgs "in.mp4" None None (Some "") None 10 false)
    (mkSt false [])
  = (Raise ValueError, mkSt false [version_argv]).
Proof.
  rewrite (main_empty_start_uncaught (fun _ pal => (Exited true, pal))
             (fun _ => true) (fun _ => Ok tt) (Ok tt)
             (mkArgs "in.mp4" None None (Some "") None 10 false)
             (mkSt false []) false 480%Z); reflexivity.
Defined.

(** ** The default output name *)

Lemma chars_app (a b : string) :
  chars (a ++ b) = (chars a ++ chars b)%list.
Proof. induction a as [|c a IH]; simpl; [reflexivity | now rewrite IH]. Qed.

Lemma split_chars (c x : ascii) (s p : string) :
  In p (split c s) -> In x (chars p) -> In x (chars s).
Proof.
  revert p; induction s as [|ch r IH]; simpl; intros p Hp Hx.
  - destruct Hp as [<- | []]; destruct Hx.
  - destruct (Ascii.eqb ch c).
    + destruct Hp as [<- | Hp]; [destruct Hx|right; exact (IH p Hp Hx)].
    + destruct (split c r) as [|h t] eqn:E.
      * destruct Hp as [<- | []]; simpl in Hx; tauto.
      * destruct Hp as [<- | Hp].
        -- simpl in Hx; destruct Hx as [-> | Hx]; [now left|].
           right; apply (IH h); [now left | exact Hx].
        -- right; apply (IH p); [now right | exact Hx].
Qed.

Lemma split_part_no_sep (c : ascii) (s q : string) :
  In q (split c s) -> ~ In c (chars q).
Proof.
  revert q; induction s as [|ch r IH]; simpl; intros q Hq Hc.
  - destruct Hq as [<- | []]; exact Hc.
  - destruct (Ascii.eqb ch c) eqn:E.
    + destruct Hq as [<- | Hq]; [exact Hc | exact (IH q Hq Hc)].
    + destruct (split c r) as [|h t] eqn:Es.
      * destruct Hq as [<- | []]; simpl in Hc; destruct Hc as [-> | []].
        now rewrite Ascii.eqb_refl in E.
      * destruct Hq as [<- | Hq].
        -- simpl in Hc; destruct Hc as [-> | Hc];
             [now rewrite Ascii.eqb_refl in E|].
           exact (IH h (or_introl eq_refl) Hc).
        -- exact (IH q (or_intror Hq) Hc).
Qed.

Lemma join_chars (sep : string) (ps : list string) (x : ascii) :
  In x (chars (join sep ps)) ->
  In x (chars sep) \/ exists p, In p ps /\ In x (chars p).
Proof.
  induction ps as [|p ps IH]; simpl; [tauto|].
  destruct ps as [|q ps].
  - intros Hx; right; exists p; tauto.
  - rewrite !chars_app; intros Hx.
    apply in_app_or in Hx as [Hx | Hx]; [right; exists p; tauto|].
    apply in_app_or in Hx as [Hx | Hx]; [now left|].
    destruct (IH Hx) as [H | (p' & Hin & H)]; [now left|].
    right; exists p'; tauto.
Qed.

Lemma last_in {A : Type} (l : list A) (d : A) : last l d = d \/ In (last l d) l.
Proof.
  induction l as [|x [|y l] IH]; [now left|now right; left|].
  destruct IH as [H | H]; [left; exact H | right; right; exact H].
Qed.

Lemma path_name_no_slash (p : string) (x : ascii) :
  In x (chars (path_name p)) -> x <> "/"%char.
Proof.
  unfold path_name; intros Hx ->.
  destruct (last_in (filter (fun c => negb (String.eqb c "") &&
                                      negb (String.eqb c ".")) (split "/" p))
              "") as [H | H].
  - rewrite H in Hx; destruct Hx.
  - apply filter_In in H as [H _].
    exact (split_part_no_sep _ _ _ H Hx).
Qed.

Lemma stem_no_slash (p : string) (x : ascii) :
  In x (chars (stem p)) -> x <> "/"%char.
Proof.
  unfold stem; set (name := path_name p).
  assert (Hn : forall y, In y (chars name) -> y <> "/"%char)
    by (intros y; apply path_name_no_slash).
  destruct (rev (split "." name)) as [|suffix [|b before]] eqn:E;
    try exact (Hn x).
  destruct (_ || _); [exact (Hn x)|].
  intros Hx; apply join_chars in Hx as [[<- | []] | (q & Hq & Hx)];
    [discriminate|].
  apply Hn, (split_chars "." x name q); [|exact Hx].
  apply in_rev; rewrite E; right; apply in_rev; exact Hq.
Qed.

(** Without [-o] the output is [Path(input).stem + '.gif'] (lines 83-85):
    a name with no directory part, so the GIF is written to the current
    directory, not beside an input such as [videos/clip.mp4]. *)
Theorem default_output_in_cwd (a : Args) :
  a_output a = None ->
  (~ In "/"%char (chars (output_path a))) /\
  (output_path a = stem (a_input a) ++ ".gif").
Proof.
  unfold output_path; intros ->; split; [|reflexivity].
  rewrite chars_app; intros H; apply in_app_or in H as [H | H].
  - exact (stem_no_slash _ _ H eq_refl).
  - simpl in H; repeat (destruct H as [H | H]; [discriminate H|]); exact H.
Qed.

Lemma default_output_in_cwd_witness :
  output_path (mkArgs "videos/clip.mp4" None None None None 10 false)
  = "clip.gif".
Proof.
  destruct (default_output_in_cwd
              (mkArgs "videos/clip.mp4" None None None None 10 false) eq_refl)
    as [_ ->].
  vm_compute; reflexivity.
Defined.

Lemma split_no_sep (c : ascii) (s : string) :
  ~ In c (chars s) -> split c s = [s].
Proof.
  induction s as [|d r IH]; simpl; intros Hs; [reflexivity|].
  destruct (Ascii.eqb d c) eqn:E.
  - exfalso; apply Hs; left; now apply Ascii.eqb_eq.
  - rewrite IH; [reflexivity|tauto].
Qed.

Lemma split_sep_app (c : ascii) (a b : string) :
  ~ In c (chars a) -> split c (a ++ String c b) = a :: split c b.
Proof.
  induction a as [|d r IH]; simpl; intros Ha.
  - now rewrite Ascii.eqb_refl.
  - destruct (Ascii.eqb d c) eqn:E.
    + exfalso; apply Ha; left; now apply Ascii.eqb_eq.
    + rewrite IH; [reflexivity|tauto].
Qed.

(** An input [name.gif] in the current directory, converted without
    [-o], has the default output path equal to the input path: the final
    pass is asked to overwrite ([-y]) the file it reads. *)
Theorem default_output_is_gif_input (a : Args) (name : string) :
  a_output a = None -> a_input a = name ++ ".gif" -> name <> EmptyString ->
  ~ In "."%char (chars name) ->
  ~ In "/"%char (chars name) ->
  output_path a = a_input a.
Proof.
  intros Ho Hi Hne Hdot Hsl; unfold output_path; rewrite Ho, Hi.
  unfold stem, path_name.
  rewrite (split_no_sep "/"%char).
  2: { rewrite chars_app; intros H; apply in_app_or in H as [H | H];
       [exact (Hsl H)|].
       simpl in H; repeat (destruct H as [H | H]; [discriminate H|]); exact H. }
  destruct name as [|c r]; [contradiction|].
  assert (Hc : Ascii.eqb c "." = false)
    by (apply Ascii.eqb_neq; intros ->; apply Hdot; now left).
  cbn [filter String.append String.eqb]; rewrite Hc; cbn [negb andb last].
  change (String c (r ++ ".gif")) with (String c r ++ String "." "gif").
  rewrite (split_sep_app "." (String c r) "gif" Hdot); reflexivity.
Qed.

Lemma default_output_is_gif_input_witness :
  output_path (mkArgs "clip.gif" None None None None 10 false) = "clip.gif".
Proof.
  assert (N : forall c, c <> "c"%char -> c <> "l"%char -> c <> "i"%char ->
             c <> "p"%char -> ~ In c (chars "clip"))
    by (simpl; intros c H1 H2 H3 H4 H;
        destruct H as [<- | [<- | [<- | [<- | []]]]]; tauto).
  exact (default_output_is_gif_input
           (mkArgs "clip.gif" None None None None 10 false) "clip"
           eq_refl eq_refl ltac:(discriminate)
           (N "."%char ltac:(discriminate) ltac:(discriminate) ltac:(discriminate)
              ltac:(discriminate))
           (N "/"%char ltac:(discriminate) ltac:(discriminate) ltac:(discriminate)
              ltac:(discriminate))).
Defined.
